(** * Typed API client and error normalisation

    A shallow embedding of [src/lib/api/errors.ts], [src/lib/api/client.ts],
    [src/lib/api/endpoints.ts] (the query-string helper and the endpoint
    functions) and the submit logic of the sign-in and sign-up pages, followed
    by the properties of the error taxonomy, of the request life cycle, of
    the query builder, of the endpoints and of the two forms. *)

From Stdlib Require Import QArith Ascii String.
From stdpp Require Import gmap strings list pretty.

Local Open Scope string_scope.
Local Open Scope Z_scope.
Set Warnings "-register-all".

(** ** JavaScript values *)

(** A JavaScript number, as far as comparison observes it: not-a-number, the
    two infinities, or a finite value (every finite double is a rational;
    [-0] and [+0] are the same rational, as they are for [===]). *)
Inductive number : Type :=
  | NaN
  | PosInf
  | NegInf
  | Fin (q : Q).

(** An integer literal of the source. *)
Definition num (z : Z) : number := Fin (inject_Z z).

(** The values a body, a thrown value or a query field can hold.  An object is
    the list of its properties in [Object.entries] order. *)
Inductive JsValue : Type :=
  | JUndefined
  | JNull
  | JBool (b : bool)
  | JNum (n : number)
  | JStr (s : string)
  | JArr (items : list JsValue)
  | JObj (props : list (string * JsValue)).

(** [typeof v] *)
Definition typeof (v : JsValue) : string :=
  match v with
  | JUndefined => "undefined"
  | JNull => "object"
  | JBool _ => "boolean"
  | JNum _ => "number"
  | JStr _ => "string"
  | JArr _ => "object"
  | JObj _ => "object"
  end.

(** [a === b] on numbers *)
Definition num_strict_eq (a b : number) : bool :=
  match a, b with
  | Fin p, Fin q => Qeq_bool p q
  | PosInf, PosInf => true
  | NegInf, NegInf => true
  | _, _ => false
  end.

(** [a >= b] on numbers *)
Definition num_ge (a b : number) : bool :=
  match a, b with
  | NaN, _ | _, NaN => false
  | PosInf, _ => true
  | _, NegInf => true
  | NegInf, _ => false
  | Fin _, PosInf => false
  | Fin p, Fin q => Qle_bool q p
  end.

(** Truthiness of a number: everything but [0] and [NaN]. *)
Definition num_truthy (n : number) : bool :=
  match n with
  | NaN => false
  | PosInf | NegInf => true
  | Fin q => negb (Qeq_bool q 0)
  end.

(** Truthiness, the coercion behind [!!v], [v ? a : b] and [!v]. *)
Definition truthy (v : JsValue) : bool :=
  match v with
  | JUndefined | JNull => false
  | JBool b => b
  | JNum n => num_truthy n
  | JStr s => negb (String.eqb s "")
  | JArr _ | JObj _ => true
  end.

Fixpoint lookup_prop (k : string) (props : list (string * JsValue)) : JsValue :=
  match props with
  | [] => JUndefined
  | (k', v) :: rest => if String.eqb k k' then v else lookup_prop k rest
  end.

(** [v.k] for the property names the source reads ([error], [code],
    [message]); a value that does not carry the property gives [undefined].
    The source reads properties only of values that are neither [null] nor
    [undefined]. *)
Definition get_prop (v : JsValue) (k : string) : JsValue :=
  match v with
  | JObj props => lookup_prop k props
  | _ => JUndefined
  end.

(** [a ?? b] *)
Definition nullish (a b : JsValue) : JsValue :=
  match a with
  | JUndefined | JNull => b
  | _ => a
  end.

(** [s ?? d] for an optional string [s]. *)
Definition str_or (s : option string) (d : string) : string :=
  match s with
  | Some x => x
  | None => d
  end.

(** ** errors.ts *)

Inductive ApiErrorCode : Type :=
  | UNAUTHORIZED
  | FORBIDDEN
  | NOT_FOUND
  | PURCHASE_REQUIRED
  | EXPIRED
  | VALIDATION_ERROR
  | SERVER_ERROR
  | NETWORK_ERROR
  | UNKNOWN_ERROR.

(** The string literal each member of the union type stands for. *)
Definition code_string (c : ApiErrorCode) : string :=
  match c with
  | UNAUTHORIZED => "UNAUTHORIZED"
  | FORBIDDEN => "FORBIDDEN"
  | NOT_FOUND => "NOT_FOUND"
  | PURCHASE_REQUIRED => "PURCHASE_REQUIRED"
  | EXPIRED => "EXPIRED"
  | VALIDATION_ERROR => "VALIDATION_ERROR"
  | SERVER_ERROR => "SERVER_ERROR"
  | NETWORK_ERROR => "NETWORK_ERROR"
  | UNKNOWN_ERROR => "UNKNOWN_ERROR"
  end.

(** The [code] field is declared [ApiErrorCode], but [toApiError] fills it
    through a type assertion, so at run time it holds whatever value was
    asserted; likewise [message].  [status] is [None] both when the property is
    missing and when it holds [undefined]. *)
Record ApiError : Type := mkApiError {
  code : JsValue;
  message : JsValue;
  status : option number;
  details : JsValue
}.

Definition isServerErrorShape (errData : JsValue) : bool :=
  if negb (String.eqb (typeof errData) "object")
     || match errData with JNull => true | _ => false end
  then false
  else
    let err := get_prop errData "error" in
    truthy err && String.eqb (typeof err) "object"
      && String.eqb (typeof (get_prop err "code")) "string".

Definition mapHttpStatusToCode (status : number) : ApiErrorCode :=
  if num_strict_eq status (num 400) then VALIDATION_ERROR
  else if num_strict_eq status (num 401) then UNAUTHORIZED
  else if num_strict_eq status (num 403) then FORBIDDEN
  else if num_strict_eq status (num 404) then NOT_FOUND
  else if num_strict_eq status (num 410) then EXPIRED
  else if num_ge status (num 500) then SERVER_ERROR
  else UNKNOWN_ERROR.

(** The argument object [{status, body, fallbackMessage}] is taken apart on
    entry; the three properties are the three arguments here, a missing
    [body] being [JUndefined]. *)
Definition toApiError (status : option number) (body : JsValue)
    (fallbackMessage : option string) : ApiError :=
  if isServerErrorShape body then
    let code := get_prop (get_prop body "error") "code" in
    {| code :=
         nullish code
           (JStr (code_string
              (match status with
               | Some s => if num_truthy s then mapHttpStatusToCode s else UNKNOWN_ERROR
               | None => UNKNOWN_ERROR
               end)));
       message :=
         nullish (get_prop (get_prop body "error") "message")
           (JStr (str_or fallbackMessage "UNKOWN_ERROR"));
       status := status;
       details := body |}
  else
    match status with
    | Some s =>
        {| code := JStr (code_string (mapHttpStatusToCode s));
           message := JStr (str_or fallbackMessage "ERROR");
           status := Some s;
           details := body |}
    | None =>
        {| code := JStr (code_string NETWORK_ERROR);
           message := JStr (str_or fallbackMessage "通信に失敗しました");
           status := None;
           details := body |}
    end.

(** ** client.ts *)

Inductive RequestCredentials : Type :=
  | omit
  | same_origin
  | include.

Module ApiClientOptions.
Record t : Type := mk {
  credentials : option RequestCredentials;
  headers : option (gmap string string)
}.
End ApiClientOptions.

(** The properties of a [RequestInit] the client reads or sets.  [body] is the
    serialised payload. *)
Module RequestInit.
Record t : Type := mk {
  method : option string;
  body : option string;
  headers : option (gmap string string);
  credentials : option RequestCredentials
}.
End RequestInit.

(** What the client observes of a [Response]: the status, the result of
    [headers.get("content-type")], and what [json()] and [text()] settle to
    ([None] when the promise rejects). *)
Module Response.
Record t : Type := mk {
  status : Z;
  content_type : option string;
  json : option JsValue;
  text : option string
}.

(** The [ok] getter: the status is in the range 200 to 299. *)
Definition ok (r : t) : bool := (200 <=? status r) && (status r <=? 299).
End Response.

(** An asynchronous computation: it extends the log of [fetch] calls made so
    far, and settles by resolving with a value or rejecting with a thrown
    one. *)
Inductive Outcome (E A : Type) : Type :=
  | Resolved (a : A)
  | Rejected (e : E).
Arguments Resolved {E A} a.
Arguments Rejected {E A} e.

Definition FetchCall : Type := string * RequestInit.t.

Definition Async (E A : Type) : Type :=
  list FetchCall -> list FetchCall * Outcome E A.

#[global] Instance Async_ret {E} : MRet (Async E) :=
  fun A a log => (log, Resolved a).

#[global] Instance Async_bind {E} : MBind (Async E) :=
  fun A B k m log =>
    match m log with
    | (log', Resolved a) => k a log'
    | (log', Rejected e) => (log', Rejected e)
    end.

(** [throw e] *)
Definition throw {E A} (e : E) : Async E A :=
  fun log => (log, Rejected e).

(** [try { m } catch (e) { handler e }] *)
Definition try_catch {E E' A} (m : Async E A) (handler : E -> Async E' A) : Async E' A :=
  fun log =>
    match m log with
    | (log', Resolved a) => (log', Resolved a)
    | (log', Rejected e) => handler e log'
    end.

(** Running a computation from an empty log. *)
Definition run {E A} (m : Async E A) : list FetchCall * Outcome E A := m [].

(** [needle] occurs in [hay]: [hay.includes(needle)]. *)
Fixpoint includes (needle hay : string) : bool :=
  String.prefix needle hay ||
  match hay with
  | EmptyString => false
  | String _ rest => includes needle rest
  end.

(** [`${v}`] for an environment variable, which is a string or [undefined]. *)
Definition template (v : option string) : string :=
  match v with
  | Some s => s
  | None => "undefined"
  end.

Record ApiClient : Type := mkApiClient { opts : ApiClientOptions.t }.

(** [new ApiClient()] takes [{}] for the options. *)
Definition default_opts : ApiClientOptions.t :=
  ApiClientOptions.mk None None.

Section Client.

(** [process.env.NEXT_PUBLIC_API_BASE_URL] at the time the module loads. *)
Variable BASE_URL : option string.

(** The transport: what the global [fetch] settles to for a URL and an
    init object, a response or a thrown value. *)
Variable transport : string -> RequestInit.t -> Outcome JsValue Response.t.

(** [JSON.stringify] on a value other than [undefined]. *)
Variable JSON_stringify : JsValue -> string.

(** The statement run when the module loads; the list holds the
    [console.warn] messages.  Nothing is thrown. *)
Definition module_load : list string :=
  if negb (truthy (match BASE_URL with Some s => JStr s | None => JUndefined end))
  then ["NEXT_PUBLIC_API_BASE_URL is not set."]
  else [].

(** [await fetch(url, init)] *)
Definition fetch (url : string) (init : RequestInit.t) : Async JsValue Response.t :=
  fun log => ((log ++ [(url, init)])%list, transport url init).

Definition request (this : ApiClient) (path : string) (init : RequestInit.t)
    : Async ApiError JsValue :=
  let url := template BASE_URL ++ path in
  let headers : gmap string string :=
    default ∅ (RequestInit.headers init)
      ∪ (default ∅ (ApiClientOptions.headers (opts this))
           ∪ {[ "Content-Type" := "application/json" ]}) in
  let credentials :=
    default (default include (ApiClientOptions.credentials (opts this)))
      (RequestInit.credentials init) in
  res ← try_catch
          (fetch url
             (RequestInit.mk (RequestInit.method init) (RequestInit.body init)
                (Some headers) (Some credentials)))
          (fun e => throw (toApiError None e (Some "ネットワークエラーが発生しました。")));
  let contentType := str_or (Response.content_type res) "" in
  let body :=
    if includes "application/json" contentType then
      match Response.json res with
      | Some v => v
      | None => JNull
      end
    else
      match Response.text res with
      | Some s => JStr s
      | None => JNull
      end in
  if negb (Response.ok res) then
    throw (toApiError (Some (num (Response.status res))) body
             (Some "サーバーエラーが発生しました。"))
  else mret body.

(** Names for what the constants [url], [headers] and [credentials] of
    [request] hold and for the init object it hands to [fetch], to state
    properties with. *)
Definition request_url (path : string) : string := template BASE_URL ++ path.

Definition request_headers (this : ApiClient) (init : RequestInit.t)
    : gmap string string :=
  default ∅ (RequestInit.headers init)
    ∪ (default ∅ (ApiClientOptions.headers (opts this))
         ∪ {[ "Content-Type" := "application/json" ]}).

Definition request_credentials (this : ApiClient) (init : RequestInit.t)
    : RequestCredentials :=
  default (default include (ApiClientOptions.credentials (opts this)))
    (RequestInit.credentials init).

Definition fetch_init (this : ApiClient) (init : RequestInit.t) : RequestInit.t :=
  RequestInit.mk (RequestInit.method init) (RequestInit.body init)
    (Some (request_headers this init)) (Some (request_credentials this init)).

(** The value the variable [body] of [request] holds once the response
    has been read. *)
Definition decoded_body (res : Response.t) : JsValue :=
  if includes "application/json" (str_or (Response.content_type res) "") then
    match Response.json res with
    | Some v => v
    | None => JNull
    end
  else
    match Response.text res with
    | Some s => JStr s
    | None => JNull
    end.

Definition get (this : ApiClient) (path : string) : Async ApiError JsValue :=
  request this path (RequestInit.mk (Some "GET") None None None).

Definition post (this : ApiClient) (path : string) (data : JsValue)
    : Async ApiError JsValue :=
  request this path
    (RequestInit.mk (Some "POST")
       (match data with
        | JUndefined => None
        | _ => Some (JSON_stringify data)
        end)
       None None).

Definition delete (this : ApiClient) (path : string) : Async ApiError JsValue :=
  request this path (RequestInit.mk (Some "DELETE") None None None).

Definition apiClient : ApiClient :=
  mkApiClient (ApiClientOptions.mk (Some include) None).

End Client.

(** ** endpoints.ts: the query-string helper *)

(** [URLSearchParams] is a list of name and value pairs (URL Standard). *)
Module URLSearchParams.

Definition t : Type := list (string * string).

(** [new URLSearchParams()] *)
Definition empty : t := [].

(** [sp.append(name, value)] *)
Definition append (sp : t) (name value : string) : t :=
  (sp ++ [(name, value)])%list.

Definition has (sp : t) (name : string) : bool :=
  existsb (fun p => String.eqb (fst p) name) sp.

Definition remove_all (name : string) (sp : t) : t :=
  List.filter (fun p => negb (String.eqb (fst p) name)) sp.

Fixpoint replace_first (sp : t) (name value : string) : t :=
  match sp with
  | [] => []
  | (n, v) :: rest =>
      if String.eqb n name then (n, value) :: remove_all name rest
      else (n, v) :: replace_first rest name value
  end.

(** [sp.set(name, value)]: the first pair of that name takes the value and
    the other pairs of that name are removed; without such a pair, the
    pair is appended. *)
Definition set (sp : t) (name value : string) : t :=
  if has sp name then replace_first sp name value
  else append sp name value.

Definition hex_digit (n : N) : ascii :=
  if (n <? 10)%N then ascii_of_N (48 + n) else ascii_of_N (55 + n).

(** Bytes the [application/x-www-form-urlencoded] serialiser leaves as they
    are: ASCII letters and digits, [*], [-], [.] and [_]. *)
Definition unreserved (c : ascii) : bool :=
  let n := N_of_ascii c in
  ((48 <=? n) && (n <=? 57) || (65 <=? n) && (n <=? 90)
   || (97 <=? n) && (n <=? 122)
   || (n =? 42) || (n =? 45) || (n =? 46) || (n =? 95))%N.

Definition encode_byte (c : ascii) : string :=
  if Ascii.eqb c " " then "+"
  else if unreserved c then String c EmptyString
  else
    let n := N_of_ascii c in
    String "%" (String (hex_digit (n / 16)) (String (hex_digit (n mod 16)) EmptyString)).

(** Serialising one name or value, a string of UTF-8 bytes. *)
Fixpoint encode (s : string) : string :=
  match s with
  | EmptyString => EmptyString
  | String c rest => encode_byte c ++ encode rest
  end.

Definition encode_pair (p : string * string) : string :=
  encode (fst p) ++ "=" ++ encode (snd p).

Fixpoint join_amp (parts : list string) : string :=
  match parts with
  | [] => ""
  | [x] => x
  | x :: rest => x ++ "&" ++ join_amp rest
  end.

(** [sp.toString()] *)
Definition toString (sp : t) : string :=
  join_amp (map encode_pair sp).

End URLSearchParams.

Section Endpoints.

(** [String(n)] for a number [n]. *)
Variable Number_toString : number -> string.

(** [String(v)].  An object is a plain one, printed by
    [Object.prototype.toString]; an array joins its elements with commas,
    [null] and [undefined] elements printing as nothing. *)
Fixpoint ToString (v : JsValue) : string :=
  match v with
  | JUndefined => "undefined"
  | JNull => "null"
  | JBool true => "true"
  | JBool false => "false"
  | JNum n => Number_toString n
  | JStr s => s
  | JArr items =>
      (fix join (l : list JsValue) : string :=
         let elem (x : JsValue) : string :=
           match x with
           | JUndefined | JNull => ""
           | _ => ToString x
           end in
         match l with
         | [] => ""
         | [x] => elem x
         | x :: rest => elem x ++ "," ++ join rest
         end) items
  | JObj _ => "[object Object]"
  end.

(** The body of the [for ... of Object.entries(params)] loop: one step on
    the [URLSearchParams] under construction. *)
Definition buildQuery_step (sp : URLSearchParams.t) (entry : string * JsValue)
    : URLSearchParams.t :=
  let '(k, v) := entry in
  match v with
  | JUndefined | JNull => sp
  | JArr items =>
      fold_left (fun sp item => URLSearchParams.append sp k (ToString item)) items sp
  | _ => URLSearchParams.set sp k (ToString v)
  end.

(** [params] is given by its entries, in [Object.entries] order. *)
Definition buildQuery (params : list (string * JsValue)) : string :=
  let sp := fold_left buildQuery_step params URLSearchParams.empty in
  let q := URLSearchParams.toString sp in
  if truthy (JStr q) then "?" ++ q else "".

End Endpoints.

(** A printer to run examples with: it agrees with [String] on [NaN], on the
    infinities and on integral values of magnitude below 10^21, the page and
    limit counts a query carries; other finite values are truncated. *)
Definition print_integral (n : number) : string :=
  match n with
  | NaN => "NaN"
  | PosInf => "Infinity"
  | NegInf => "-Infinity"
  | Fin q => pretty (Z.quot (Qnum q) (Z.pos (Qden q)))
  end.

(** ** Statements taken from the specification, to compare the code with *)

(** A value is a member of the closed enumeration of error codes. *)
Definition is_ApiErrorCode (v : JsValue) : Prop :=
  exists c : ApiErrorCode, v = JStr (code_string c).

(** The code of the structured branch as the specification words it: the
    extracted code when it is not empty, else the code mapped from the
    status, else [UNKNOWN_ERROR]. *)
Definition spec_structured_code (extracted : string) (status : option number) : string :=
  if negb (String.eqb extracted "") then extracted
  else
    match status with
    | Some s => code_string (mapHttpStatusToCode s)
    | None => code_string UNKNOWN_ERROR
    end.

(** The status is the integer [z]. *)
Definition status_is (s : number) (z : Z) : Prop :=
  match s with
  | Fin q => (q == inject_Z z)%Q
  | _ => False
  end.

(** The status is at least the integer [z]. *)
Definition status_at_least (s : number) (z : Z) : Prop :=
  match s with
  | PosInf => True
  | Fin q => (inject_Z z <= q)%Q
  | _ => False
  end.

(** A call settles by rejecting with a [NETWORK_ERROR] that carries no
    status. *)
Definition rejects_with_network_error (r : list FetchCall * Outcome ApiError JsValue) : Prop :=
  exists err : ApiError,
    r.2 = Rejected err /\ code err = JStr "NETWORK_ERROR" /\ status err = None.

Section QuerySpec.

Variable Number_toString : number -> string.

(** The pairs one field stands for: none without a value, one per element
    of an array, one for anything else. *)
Definition spec_field_pairs (entry : string * JsValue) : list (string * string) :=
  match entry.2 with
  | JUndefined | JNull => []
  | JArr items => map (fun item => (entry.1, ToString Number_toString item)) items
  | v => [(entry.1, ToString Number_toString v)]
  end.

(** The query string: nothing for no pair, else [?] and the encoded pairs
    joined by [&]. *)
Definition spec_query (params : list (string * JsValue)) : string :=
  match flat_map spec_field_pairs params with
  | [] => ""
  | pairs => "?" ++ URLSearchParams.join_amp (map URLSearchParams.encode_pair pairs)
  end.

End QuerySpec.

(** ** endpoints.ts: the endpoint functions *)




(** [SignUpRequest] and [SignInRequest]: [{ email, password }]. *)
Module SignUpRequest.
Record t : Type := mk { email : string; password : string }.
Definition value (req : t) : JsValue :=
  JObj [("email", JStr (email req)); ("password", JStr (password req))].
End SignUpRequest.

Module SignInRequest.
Record t : Type := mk { email : string; password : string }.
Definition value (req : t) : JsValue :=
  JObj [("email", JStr (email req)); ("password", JStr (password req))].
End SignInRequest.

(** [CheckoutRequest]: [{ productId }]. *)
Module CheckoutRequest.
Record t : Type := mk { productId : string }.
Definition value (req : t) : JsValue :=
  JObj [("productId", JStr (productId req))].
End CheckoutRequest.

Module authApi.
Section Api.
Variable BASE_URL : option string.
Variable transport : string -> RequestInit.t -> Outcome JsValue Response.t.
Variable JSON_stringify : JsValue -> string.

Definition signup (req : SignUpRequest.t) : Async ApiError JsValue :=
  post BASE_URL transport JSON_stringify apiClient "/auth/signup" (SignUpRequest.value req).

Definition signin (req : SignInRequest.t) : Async ApiError JsValue :=
  post BASE_URL transport JSON_stringify apiClient "/auth/signin" (SignInRequest.value req).


End Api.
End authApi.

Module productsApi.
Section Api.
Variable BASE_URL : option string.
Variable transport : string -> RequestInit.t -> Outcome JsValue Response.t.
Variable Number_toString : number -> string.


(** [query] is the [ProductsQuery] object, given by its entries in
    [Object.entries] order; [None] is a call without argument, which takes
    [{}]. *)
Definition list (query : option (list (string * JsValue))) : Async ApiError JsValue :=
  let qs := buildQuery Number_toString (default [] query) in
  get BASE_URL transport apiClient ("/products" ++ qs).
End Api.
End productsApi.

Module checkoutApi.
Section Api.
Variable BASE_URL : option string.
Variable transport : string -> RequestInit.t -> Outcome JsValue Response.t.
Variable JSON_stringify : JsValue -> string.


End Api.
End checkoutApi.

Module downloadsApi.
Section Api.
Variable BASE_URL : option string.
Variable transport : string -> RequestInit.t -> Outcome JsValue Response.t.
Variable JSON_stringify : JsValue -> string.

End Api.
End downloadsApi.

Module wishlistApi.
Section Api.
Variable BASE_URL : option string.
Variable transport : string -> RequestInit.t -> Outcome JsValue Response.t.
Variable JSON_stringify : JsValue -> string.



Definition get : Async ApiError JsValue :=
  get BASE_URL transport apiClient "/wishlist".
End Api.
End wishlistApi.

(** ** Left inverses of the two encodings

    Not part of the client: they read an encoded string back, to show that
    the encodings lose nothing. *)

Definition unhex (c : ascii) : N :=
  let n := N_of_ascii c in
  (if n <? 58 then n - 48 else n - 55)%N.


(** As [percent_decode], and reads [+] back to a space. *)
Fixpoint form_decode (s : string) : string :=
  match s with
  | EmptyString => EmptyString
  | String c rest =>
      if Ascii.eqb c "%" then
        match rest with
        | String h (String l rest') =>
            String (ascii_of_N (16 * unhex h + unhex l)) (form_decode rest')
        | _ => String c (form_decode rest)
        end
      else if Ascii.eqb c "+" then String " " (form_decode rest)
      else String c (form_decode rest)
  end.

(** A field stands for no pair: it is [undefined], [null] or an empty
    array. *)
Definition absent_field (entry : string * JsValue) : Prop :=
  entry.2 = JUndefined \/ entry.2 = JNull \/ entry.2 = JArr [].

(** ** The sign-in and sign-up pages *)

(** The string of a form field, as the pages measure it: its UTF-16 code
    units. *)
Definition ustring : Type := list N.

(** White space and line terminators, the characters [trim] strips. *)
Definition is_space (u : N) : bool :=
  ((u =? 9) || (u =? 10) || (u =? 11) || (u =? 12) || (u =? 13) || (u =? 32)
   || (u =? 160) || (u =? 5760) || (8192 <=? u) && (u <=? 8202)
   || (u =? 8232) || (u =? 8233) || (u =? 8239) || (u =? 8287)
   || (u =? 12288) || (u =? 65279))%N.

Fixpoint trimStart (s : ustring) : ustring :=
  match s with
  | [] => []
  | u :: rest => if is_space u then trimStart rest else s
  end.

(** [s.trim()] *)
Definition trim (s : ustring) : ustring :=
  rev (trimStart (rev (trimStart s))).

(** [a === b] on strings *)
Definition ustring_eqb (a b : ustring) : bool := bool_decide (a = b).

Record ErrorFieldState : Type := mkErrors {
  errors_email : option JsValue;
  errors_password : option JsValue;
  errors_general : option JsValue
}.

(** [{}] *)
Definition no_errors : ErrorFieldState := mkErrors None None None.

(** What a submit handler does besides calling [fetch], in order. *)
Inductive PageEffect : Type :=
  | preventDefault
  | setLoading (b : bool)
  | setErrors (e : ErrorFieldState)
  | console_error (label : string) (error : ApiError)
  | alert (text : string)
  | router_push (href : string).

(** [error instanceof Error] for what an endpoint function rejects with:
    [toApiError] returns an object literal, whose prototype chain does not
    hold [Error.prototype]. *)
Definition instanceof_Error (error : ApiError) : bool := false.

Module SignInPage.

Record State : Type := mkState {
  email : ustring;
  password : ustring;
  showPassword : bool;
  keepSignedIn : bool;
  loading : bool;
  errors : ErrorFieldState
}.

(** [useState] initial values. *)
Definition initial : State := mkState [] [] false true false no_errors.

Definition isDisabled (st : State) : bool :=
  ustring_eqb (trim (email st)) [] || ustring_eqb (trim (password st)) [] || loading st.

(** The state once the setters among the effects have been applied. *)
Definition after (st : State) (effects : list PageEffect) : State :=
  fold_left
    (fun st eff =>
       match eff with
       | setLoading b =>
           mkState (email st) (password st) (showPassword st) (keepSignedIn st) b (errors st)
       | setErrors e =>
           mkState (email st) (password st) (showPassword st) (keepSignedIn st) (loading st) e
       | _ => st
       end)
    effects st.

Section Handlers.
Variable BASE_URL : option string.
Variable transport : string -> RequestInit.t -> Outcome JsValue Response.t.
Variable JSON_stringify : JsValue -> string.

(** The UTF-8 bytes of a form string, the form in which the client holds
    strings. *)
Variable utf8 : ustring -> string.

(** The handler of one render, whose state is [st]: the [fetch] calls and
    the other effects, in order. *)
Definition handleSubmit (st : State) : list FetchCall * list PageEffect :=
  if isDisabled st then ([], [preventDefault])
  else
    let '(log, settled) :=
      run (authApi.signin BASE_URL transport JSON_stringify
             (SignInRequest.mk (utf8 (email st)) (utf8 (password st)))) in
    (log,
     [preventDefault; setLoading true; setErrors no_errors]
       ++ match settled with
          | Resolved _ => [router_push "/"]
          | Rejected error =>
              [console_error "SignIn error:" error;
               setErrors
                 (mkErrors None None
                    (Some (if instanceof_Error error then message error
                           else JStr "サインインに失敗しました")))]
          end
       ++ [setLoading false])%list.
End Handlers.

End SignInPage.

Module SignUpPage.

Record State : Type := mkState {
  name : ustring;
  email : ustring;
  password : ustring;
  passwordConfirm : ustring;
  agree : bool;
  showPassword : bool;
  showPasswordConfirm : bool;
  loading : bool;
  errors : ErrorFieldState
}.

(** [useState] initial values. *)
Definition initial : State := mkState [] [] [] [] false false false false no_errors.

Definition passwordMismatch (st : State) : bool :=
  (0 <? length (passwordConfirm st))%nat
  && negb (ustring_eqb (password st) (passwordConfirm st)).

Definition passwordTooShort (st : State) : bool :=
  (0 <? length (password st))%nat && (length (password st) <? 8)%nat.

Definition isDisabled (st : State) : bool :=
  ustring_eqb (trim (name st)) []
  || ustring_eqb (trim (email st)) []
  || ustring_eqb (trim (password st)) []
  || ustring_eqb (trim (passwordConfirm st)) []
  || passwordMismatch st
  || passwordTooShort st
  || negb (agree st)
  || loading st.

(** The state once the setters among the effects have been applied. *)
Definition after (st : State) (effects : list PageEffect) : State :=
  fold_left
    (fun st eff =>
       match eff with
       | setLoading b =>
           mkState (name st) (email st) (password st) (passwordConfirm st) (agree st)
             (showPassword st) (showPasswordConfirm st) b (errors st)
       | setErrors e =>
           mkState (name st) (email st) (password st) (passwordConfirm st) (agree st)
             (showPassword st) (showPasswordConfirm st) (loading st) e
       | _ => st
       end)
    effects st.

Section Handlers.
Variable BASE_URL : option string.
Variable transport : string -> RequestInit.t -> Outcome JsValue Response.t.
Variable JSON_stringify : JsValue -> string.
Variable utf8 : ustring -> string.

Definition handleSubmit (st : State) : list FetchCall * list PageEffect :=
  if isDisabled st then ([], [preventDefault])
  else
    let '(log, settled) :=
      run (authApi.signup BASE_URL transport JSON_stringify
             (SignUpRequest.mk (utf8 (email st)) (utf8 (password st)))) in
    (log,
     [preventDefault; setLoading true; setErrors no_errors]
       ++ match settled with
          | Resolved _ =>
              [alert "新規登録が完了しました。サインインしてください。";
               router_push "/signin"]
          | Rejected error =>
              [console_error "SignUp error:" error;
               setErrors
                 (mkErrors None None
                    (Some (if instanceof_Error error then message error
                           else JStr "新規登録に失敗しました")))]
          end
       ++ [setLoading false])%list.
End Handlers.

End SignUpPage.

(** A form string holds a character that is not white space. *)
Definition not_blank (s : ustring) : Prop :=
  exists u, u ∈ s /\ is_space u = false.

(** * Properties *)

(** ** The error normaliser *)

Lemma typeof_string (v : JsValue) :
  String.eqb (typeof v) "string" = true -> exists s, v = JStr s.
Proof. destruct v; simpl; try discriminate; eauto. Qed.

(** A body of the structured shape carries a string under [error.code]. *)
Lemma isServerErrorShape_code (body : JsValue) :
  isServerErrorShape body = true ->
  exists s, get_prop (get_prop body "error") "code" = JStr s.
Proof.
  unfold isServerErrorShape.
  destruct (negb _ || _); [discriminate |].
  intros H. apply andb_prop in H as [_ H]. now apply typeof_string.
Qed.

(** In the structured branch the right-hand side of [??] is never taken: the
    code is the string of the body. *)
Lemma toApiError_structured (st : option number) (body : JsValue) (fb : option string) :
  isServerErrorShape body = true ->
  code (toApiError st body fb) = get_prop (get_prop body "error") "code".
Proof.
  intros H. unfold toApiError. rewrite H. simpl.
  destruct (isServerErrorShape_code _ H) as [s ->]. reflexivity.
Qed.

Lemma toApiError_unstructured (st : option number) (body : JsValue) (fb : option string) :
  isServerErrorShape body = false ->
  toApiError st body fb =
    match st with
    | Some s => mkApiError (JStr (code_string (mapHttpStatusToCode s)))
                  (JStr (str_or fb "ERROR")) (Some s) body
    | None => mkApiError (JStr (code_string NETWORK_ERROR))
                (JStr (str_or fb "通信に失敗しました")) None body
    end.
Proof. intros H. unfold toApiError. now rewrite H. Qed.

(** *** Comparisons of a status with the integers of the table *)

Lemma strict_eq_status_is (s : number) (a b : Z) :
  status_is s a -> num_strict_eq s (num b) = (a =? b).
Proof.
  destruct s as [| | |q]; simpl; try contradiction. intros H.
  destruct (Z.eqb_spec a b) as [->|Hne].
  - now apply Qeq_bool_iff.
  - destruct (Qeq_bool q (inject_Z b)) eqn:E; [|reflexivity].
    apply Qeq_bool_iff in E. exfalso. apply Hne.
    apply inject_Z_injective. now rewrite <- H, <- E.
Qed.

Lemma strict_eq_at_least (s : number) (a b : Z) :
  status_at_least s a -> b < a -> num_strict_eq s (num b) = false.
Proof.
  destruct s as [| | |q]; simpl; try contradiction; [reflexivity |].
  intros H Hlt. destruct (Qeq_bool q (inject_Z b)) eqn:E; [|reflexivity].
  apply Qeq_bool_iff in E. rewrite E in H. rewrite <- Zle_Qle in H. lia.
Qed.

Lemma ge_at_least (s : number) (a : Z) :
  status_at_least s a -> num_ge s (num a) = true.
Proof.
  destruct s as [| | |q]; simpl; try contradiction; [reflexivity |].
  intros H. now apply Qle_bool_iff.
Qed.

Lemma strict_eq_true (s : number) (b : Z) :
  num_strict_eq s (num b) = true -> status_is s b.
Proof.
  destruct s as [| | |q]; simpl; try discriminate. intros H. now apply Qeq_bool_iff.
Qed.

Lemma ge_true (s : number) (b : Z) :
  num_ge s (num b) = true -> status_at_least s b.
Proof.
  destruct s as [| | |q]; simpl; try discriminate; [trivial |].
  intros H. now apply Qle_bool_iff.
Qed.

Ltac table_row H :=
  unfold mapHttpStatusToCode;
  rewrite ?(strict_eq_status_is _ _ _ H); simpl; reflexivity.

(** The status table of [mapHttpStatusToCode], row by row. *)
Lemma mapHttpStatusToCode_table (s : number) :
  (status_is s 400 -> mapHttpStatusToCode s = VALIDATION_ERROR) /\
  (status_is s 401 -> mapHttpStatusToCode s = UNAUTHORIZED) /\
  (status_is s 403 -> mapHttpStatusToCode s = FORBIDDEN) /\
  (status_is s 404 -> mapHttpStatusToCode s = NOT_FOUND) /\
  (status_is s 410 -> mapHttpStatusToCode s = EXPIRED) /\
  (status_at_least s 500 -> mapHttpStatusToCode s = SERVER_ERROR) /\
  (~ status_is s 400 -> ~ status_is s 401 -> ~ status_is s 403 ->
   ~ status_is s 404 -> ~ status_is s 410 -> ~ status_at_least s 500 ->
   mapHttpStatusToCode s = UNKNOWN_ERROR).
Proof.
  repeat split; try (intros H; table_row H).
  - intros H. unfold mapHttpStatusToCode.
    rewrite !(strict_eq_at_least _ _ _ H) by lia.
    now rewrite (ge_at_least _ _ H).
  - intros H0 H1 H3 H4 H10 H500. unfold mapHttpStatusToCode.
    repeat match goal with
           | |- context [num_strict_eq s (num ?b)] =>
               let E := fresh "E" in
               destruct (num_strict_eq s (num b)) eqn:E;
               [apply strict_eq_true in E; contradiction |]
           end.
    destruct (num_ge s (num 500)) eqn:Ege; [apply ge_true in Ege; contradiction |].
    reflexivity.
Qed.

(** The status mapping never yields [PURCHASE_REQUIRED] or [NETWORK_ERROR]. *)
Lemma mapHttpStatusToCode_range (s : number) :
  mapHttpStatusToCode s ∈
    [VALIDATION_ERROR; UNAUTHORIZED; FORBIDDEN; NOT_FOUND; EXPIRED;
     SERVER_ERROR; UNKNOWN_ERROR].
Proof.
  unfold mapHttpStatusToCode.
  repeat match goal with
         | |- context [if ?b then _ else _] => destruct b
         end; set_solver.
Qed.

(** *** No status *)

(** C1, as stated, fails: with no status and a body of the structured shape,
    the code of the body is returned, not [NETWORK_ERROR]. *)
Lemma no_status_structured_body_keeps_body_code :
  let body := JObj [("error", JObj [("code", JStr "FORBIDDEN")])] in
  isServerErrorShape body = true /\
  code (toApiError None body None) = JStr "FORBIDDEN" /\
  code (toApiError None body None) <> JStr "NETWORK_ERROR".
Proof. simpl. repeat split. discriminate. Qed.

(** C1 (amended): when no status is supplied and the body does not match the
    structured shape, the code is [NETWORK_ERROR] whatever else the body
    holds; the error carries no status and keeps the body as its details. *)
Theorem toApiError_no_status (body : JsValue) (fb : option string) :
  isServerErrorShape body = false ->
  code (toApiError None body fb) = JStr "NETWORK_ERROR" /\
  status (toApiError None body fb) = None /\
  details (toApiError None body fb) = body.
Proof. intros H. rewrite (toApiError_unstructured _ _ _ H). now simpl. Qed.

Lemma toApiError_no_status_witness :
  let body := JObj [("message", JStr "Failed to fetch")] in
  isServerErrorShape body = false /\
  code (toApiError None body None) = JStr "NETWORK_ERROR".
Proof.
  simpl. split; [reflexivity |].
  apply (toApiError_no_status (JObj [("message", JStr "Failed to fetch")]) None).
  reflexivity.
Defined.

(** *** The closed enumeration *)

(** C2, as stated, fails: a structured body carries its code through
    unchecked, so a code outside the enumeration reaches the caller. *)
Lemma structured_code_outside_enumeration :
  ~ is_ApiErrorCode
      (code (toApiError (Some (num 418))
               (JObj [("error", JObj [("code", JStr "TEAPOT")])]) None)).
Proof. intros [c H]. vm_compute in H. destruct c; discriminate H. Qed.

(** C2 (amended): the code is one of the nine members whenever the body does
    not match the structured shape, or matches it with a code that is itself
    one of the nine. *)
Theorem toApiError_code_in_enumeration
    (st : option number) (body : JsValue) (fb : option string) :
  isServerErrorShape body = false \/
    is_ApiErrorCode (get_prop (get_prop body "error") "code") ->
  is_ApiErrorCode (code (toApiError st body fb)).
Proof.
  intros H. destruct (isServerErrorShape body) eqn:E.
  - rewrite (toApiError_structured _ _ _ E). destruct H as [H|H]; [discriminate | exact H].
  - rewrite (toApiError_unstructured _ _ _ E). destruct st; eexists; reflexivity.
Qed.

Lemma toApiError_code_in_enumeration_witness :
  is_ApiErrorCode (code (toApiError (Some (num 502)) (JStr "Bad Gateway") None)).
Proof.
  apply (toApiError_code_in_enumeration (Some (num 502)) (JStr "Bad Gateway") None).
  left. reflexivity.
Defined.

(** *** The structured branch *)

(** C3, as stated, fails: an empty code is not replaced by the code mapped
    from the status; [??] replaces only [null] and [undefined]. *)
Lemma structured_empty_code_is_kept :
  let body := JObj [("error", JObj [("code", JStr "")])] in
  isServerErrorShape body = true /\
  code (toApiError (Some (num 403)) body None) = JStr "" /\
  spec_structured_code "" (Some (num 403)) = "FORBIDDEN" /\
  code (toApiError (Some (num 403)) body None)
    <> JStr (spec_structured_code "" (Some (num 403))).
Proof. simpl. repeat split. discriminate. Qed.

(** C3 (amended): for a body of the structured shape the code is the
    extracted string as it is, empty or not; it agrees with the wording of
    the specification whenever the string is not empty. *)
Theorem toApiError_structured_code
    (st : option number) (body : JsValue) (fb : option string) :
  isServerErrorShape body = true ->
  exists s : string,
    get_prop (get_prop body "error") "code" = JStr s /\
    code (toApiError st body fb) = JStr s /\
    (s <> "" -> code (toApiError st body fb) = JStr (spec_structured_code s st)).
Proof.
  intros H. destruct (isServerErrorShape_code _ H) as [s Hs].
  exists s. rewrite (toApiError_structured _ _ _ H), Hs. repeat split.
  intros Hne. unfold spec_structured_code.
  destruct (String.eqb_spec s ""); [contradiction | reflexivity].
Qed.

Lemma toApiError_structured_code_witness :
  exists s : string,
    s = "UNAUTHORIZED" /\
    code (toApiError (Some (num 401))
            (JObj [("error", JObj [("code", JStr "UNAUTHORIZED")])]) None) = JStr s.
Proof.
  destruct (toApiError_structured_code (Some (num 401))
              (JObj [("error", JObj [("code", JStr "UNAUTHORIZED")])]) None eq_refl)
    as (s & Hs & Hc & _).
  exists s. split; [|exact Hc]. simpl in Hs. now inversion Hs.
Defined.

(** *** The status table *)

(** C6: without a structured body and with a numeric status, the code follows
    the table; the message is the fallback message or ["ERROR"], the details
    are the body, and the status is kept. *)
Theorem toApiError_status_table (s : number) (body : JsValue) (fb : option string) :
  isServerErrorShape body = false ->
  let r := toApiError (Some s) body fb in
  (status_is s 400 -> code r = JStr "VALIDATION_ERROR") /\
  (status_is s 401 -> code r = JStr "UNAUTHORIZED") /\
  (status_is s 403 -> code r = JStr "FORBIDDEN") /\
  (status_is s 404 -> code r = JStr "NOT_FOUND") /\
  (status_is s 410 -> code r = JStr "EXPIRED") /\
  (status_at_least s 500 -> code r = JStr "SERVER_ERROR") /\
  (~ status_is s 400 -> ~ status_is s 401 -> ~ status_is s 403 ->
   ~ status_is s 404 -> ~ status_is s 410 -> ~ status_at_least s 500 ->
   code r = JStr "UNKNOWN_ERROR") /\
  message r = JStr (match fb with Some m => m | None => "ERROR" end) /\
  details r = body /\
  status r = Some s.
Proof.
  intros H. rewrite (toApiError_unstructured _ _ _ H). cbv zeta. cbn [code message details status].
  destruct (mapHttpStatusToCode_table s) as (T0 & T1 & T3 & T4 & T10 & T500 & Tother).
  repeat split.
  - intros Hs. now rewrite T0.
  - intros Hs. now rewrite T1.
  - intros Hs. now rewrite T3.
  - intros Hs. now rewrite T4.
  - intros Hs. now rewrite T10.
  - intros Hs. now rewrite T500.
  - intros. now rewrite Tother.
Qed.

Lemma toApiError_status_table_witness :
  code (toApiError (Some (num 418)) (JStr "I am a teapot") None) = JStr "UNKNOWN_ERROR" /\
  code (toApiError (Some (num 503)) JNull None) = JStr "SERVER_ERROR".
Proof.
  split.
  - apply (toApiError_status_table (num 418) (JStr "I am a teapot") None eq_refl);
      cbn; unfold Qeq, Qle; cbn; lia.
  - apply (toApiError_status_table (num 503) JNull None eq_refl).
    cbn; unfold Qle; cbn; lia.
Defined.

(** The statuses the specification lists, with a body that is not
    structured. *)
Example status_table_listed :
  map (fun z => code (toApiError (Some (num z)) JNull None))
    [400; 401; 403; 404; 410; 500; 502; 503; 418]
  = map JStr
      ["VALIDATION_ERROR"; "UNAUTHORIZED"; "FORBIDDEN"; "NOT_FOUND"; "EXPIRED";
       "SERVER_ERROR"; "SERVER_ERROR"; "SERVER_ERROR"; "UNKNOWN_ERROR"].
Proof. reflexivity. Qed.

(** *** Precedence of the structured code *)

(** C7: with body [{ error: { code: "PURCHASE_REQUIRED" } }] and status 403
    the code is [PURCHASE_REQUIRED], although the status alone maps to
    [FORBIDDEN]. *)
Theorem toApiError_purchase_required (fb : option string) :
  let body := JObj [("error", JObj [("code", JStr "PURCHASE_REQUIRED")])] in
  code (toApiError (Some (num 403)) body fb) = JStr "PURCHASE_REQUIRED" /\
  code (toApiError (Some (num 403)) JNull fb) = JStr "FORBIDDEN".
Proof. split; reflexivity. Qed.

(** ** The request executor *)

Lemma toApiError_no_status_field (body : JsValue) (fb : option string) :
  status (toApiError None body fb) = None.
Proof. unfold toApiError. now destruct (isServerErrorShape body). Qed.

Section ClientProperties.

Variable BASE_URL : option string.
Variable transport : string -> RequestInit.t -> Outcome JsValue Response.t.
Variable JSON_stringify : JsValue -> string.


(** One run of [request]: a single [fetch], then the three ways to
    settle. *)
Lemma request_run (this : ApiClient) (path : string) (init : RequestInit.t) :
  run (request BASE_URL transport this path init) =
    ([(request_url BASE_URL path, fetch_init this init)],
     match transport (request_url BASE_URL path) (fetch_init this init) with
     | Rejected e =>
         Rejected (toApiError None e (Some "ネットワークエラーが発生しました。"))
     | Resolved res =>
         if Response.ok res then Resolved (decoded_body res)
         else Rejected (toApiError (Some (num (Response.status res)))
                          (decoded_body res) (Some "サーバーエラーが発生しました。"))
     end).
Proof.
  unfold run, request, mbind, Async_bind, try_catch, fetch, throw.
  change (transport (template BASE_URL ++ path) _)
    with (transport (request_url BASE_URL path) (fetch_init this init)).
  cbn [app]. fold (request_url BASE_URL path).
  destruct (transport (request_url BASE_URL path) (fetch_init this init)) as [res|e];
    [|reflexivity].
  fold (decoded_body res). now destruct (Response.ok res).
Qed.

Lemma ok_iff (res : Response.t) :
  Response.ok res = true <-> 200 <= Response.status res <= 299.
Proof. unfold Response.ok. rewrite andb_true_iff, !Z.leb_le. tauto. Qed.

(** C4 (amended): when [fetch] throws, the call rejects with the error
    classified from no status and the thrown value as body; [fetch] was
    called once; the error carries no status, and its code is
    [NETWORK_ERROR] whenever the thrown value does not match the structured
    shape. *)
Theorem request_transport_failure
    (this : ApiClient) (path : string) (init : RequestInit.t) (e : JsValue) :
  transport (request_url BASE_URL path) (fetch_init this init) = Rejected e ->
  let r := run (request BASE_URL transport this path init) in
  r.1 = [(request_url BASE_URL path, fetch_init this init)] /\
  r.2 = Rejected (toApiError None e (Some "ネットワークエラーが発生しました。")) /\
  (forall err, r.2 = Rejected err -> status err = None) /\
  (isServerErrorShape e = false -> rejects_with_network_error r).
Proof.
  intros H. cbv zeta. rewrite request_run, H. cbn [fst snd]. repeat split.
  - intros err [= <-]. apply toApiError_no_status_field.
  - intros Hshape. eexists. split; [reflexivity |].
    now rewrite (toApiError_unstructured _ _ _ Hshape).
Qed.

(** C5: once a response is obtained, a status in the range 200 to 299
    resolves the call with the decoded body, and any other status rejects
    it with the error classified from that status, the decoded body and the
    generic fallback message; [fetch] was called once. *)
Theorem request_response
    (this : ApiClient) (path : string) (init : RequestInit.t) (res : Response.t) :
  transport (request_url BASE_URL path) (fetch_init this init) = Resolved res ->
  let r := run (request BASE_URL transport this path init) in
  r.1 = [(request_url BASE_URL path, fetch_init this init)] /\
  (200 <= Response.status res <= 299 -> r.2 = Resolved (decoded_body res)) /\
  (~ 200 <= Response.status res <= 299 ->
   r.2 = Rejected (toApiError (Some (num (Response.status res))) (decoded_body res)
                     (Some "サーバーエラーが発生しました。"))).
Proof.
  intros H. cbv zeta. rewrite request_run, H. cbn [fst snd]. repeat split.
  - intros Hok. apply ok_iff in Hok. now rewrite Hok.
  - intros Hnok. destruct (Response.ok res) eqn:E; [|reflexivity].
    apply ok_iff in E. contradiction.
Qed.

(** C8: a response with a status in the range 200 to 299 whose body cannot
    be decoded, as JSON when the content type names JSON and as text
    otherwise, resolves the call with [null]. *)
Theorem request_undecodable_success
    (this : ApiClient) (path : string) (init : RequestInit.t) (res : Response.t) :
  transport (request_url BASE_URL path) (fetch_init this init) = Resolved res ->
  200 <= Response.status res <= 299 ->
  (includes "application/json" (str_or (Response.content_type res) "") = true /\
     Response.json res = None) \/
  (includes "application/json" (str_or (Response.content_type res) "") = false /\
     Response.text res = None) ->
  run (request BASE_URL transport this path init) =
    ([(request_url BASE_URL path, fetch_init this init)], Resolved JNull).
Proof.
  intros H Hok Hbody. rewrite request_run, H.
  apply ok_iff in Hok. rewrite Hok. f_equal. f_equal.
  unfold decoded_body.
  now destruct Hbody as [[-> ->]|[-> ->]].
Qed.

End ClientProperties.

(** C4, as stated, fails: [fetch] rejects with the abort reason when the
    caller's signal is aborted with one, and a reason of the structured shape
    gives its own code to the error. *)
Lemma transport_failure_with_structured_reason :
  let reason := JObj [("error", JObj [("code", JStr "FORBIDDEN")])] in
  ~ rejects_with_network_error
      (run (request (Some "https://api.example.test") (fun _ _ => Rejected reason)
              apiClient "/me" (RequestInit.mk (Some "GET") None None None))).
Proof.
  cbv zeta. intros (err & Herr & Hcode & _).
  rewrite request_run in Herr. cbn [snd] in Herr.
  injection Herr as <-. vm_compute in Hcode. discriminate Hcode.
Qed.

Lemma request_transport_failure_witness :
  let cause := JObj [("message", JStr "Failed to fetch")] in
  rejects_with_network_error
    (run (request (Some "https://api.example.test") (fun _ _ => Rejected cause)
            apiClient "/me" (RequestInit.mk (Some "GET") None None None))).
Proof.
  cbv zeta.
  apply (request_transport_failure (Some "https://api.example.test")
           (fun _ _ => Rejected (JObj [("message", JStr "Failed to fetch")]))
           apiClient "/me" (RequestInit.mk (Some "GET") None None None)
           (JObj [("message", JStr "Failed to fetch")]) eq_refl).
  reflexivity.
Defined.

(** The sign-in scenarios: status 401 with a structured body rejects with
    that code and status, status 200 resolves with the body. *)
Lemma request_response_witness :
  let denied :=
    Response.mk 401 (Some "application/json")
      (Some (JObj [("error", JObj [("code", JStr "UNAUTHORIZED")])])) None in
  let granted :=
    Response.mk 200 (Some "application/json; charset=utf-8")
      (Some (JObj [("user", JObj [("id", JStr "u1"); ("email", JStr "a@b.c")])])) None in
  let init := RequestInit.mk (Some "POST") (Some "{}") None None in
  (run (request (Some "https://api.example.test") (fun _ _ => Resolved denied)
          apiClient "/auth/signin" init)).2
    = Rejected
        (mkApiError (JStr "UNAUTHORIZED") (JStr "サーバーエラーが発生しました。")
           (Some (num 401)) (JObj [("error", JObj [("code", JStr "UNAUTHORIZED")])])) /\
  (run (request (Some "https://api.example.test") (fun _ _ => Resolved granted)
          apiClient "/auth/signin" init)).2
    = Resolved (JObj [("user", JObj [("id", JStr "u1"); ("email", JStr "a@b.c")])]).
Proof.
  cbv zeta. split.
  - destruct (request_response (Some "https://api.example.test")
                (fun _ _ => Resolved
                   (Response.mk 401 (Some "application/json")
                      (Some (JObj [("error", JObj [("code", JStr "UNAUTHORIZED")])])) None))
                apiClient "/auth/signin"
                (RequestInit.mk (Some "POST") (Some "{}") None None) _ eq_refl)
      as (_ & _ & H).
    rewrite H; [reflexivity | cbn; lia].
  - destruct (request_response (Some "https://api.example.test")
                (fun _ _ => Resolved
                   (Response.mk 200 (Some "application/json; charset=utf-8")
                      (Some (JObj [("user", JObj [("id", JStr "u1"); ("email", JStr "a@b.c")])]))
                      None))
                apiClient "/auth/signin"
                (RequestInit.mk (Some "POST") (Some "{}") None None) _ eq_refl)
      as (_ & H & _).
    rewrite H; [reflexivity | cbn; lia].
Defined.

Lemma request_undecodable_success_witness :
  let res := Response.mk 200 (Some "text/plain") None None in
  (run (request (Some "https://api.example.test") (fun _ _ => Resolved res)
          apiClient "/me" (RequestInit.mk (Some "GET") None None None))).2
    = Resolved JNull.
Proof.
  cbv zeta.
  rewrite (request_undecodable_success (Some "https://api.example.test")
             (fun _ _ => Resolved (Response.mk 200 (Some "text/plain") None None))
             apiClient "/me" (RequestInit.mk (Some "GET") None None None) _ eq_refl).
  - reflexivity.
  - cbn. lia.
  - right. split; reflexivity.
Defined.

(** C10: with the base URL unset, loading the module warns once and throws
    nothing, and [request], hence [get], [post] and [delete], calls [fetch]
    once, on ["undefined"] followed by the path; how the call settles is what
    the transport answers there, never a configuration error. *)
Theorem request_without_base_url
    (transport : string -> RequestInit.t -> Outcome JsValue Response.t)
    (JSON_stringify : JsValue -> string)
    (this : ApiClient) (path : string) (init : RequestInit.t) (data : JsValue) :
  module_load None = ["NEXT_PUBLIC_API_BASE_URL is not set."] /\
  run (request None transport this path init) =
    ([("undefined" ++ path, fetch_init this init)],
     match transport ("undefined" ++ path) (fetch_init this init) with
     | Rejected e =>
         Rejected (toApiError None e (Some "ネットワークエラーが発生しました。"))
     | Resolved res =>
         if Response.ok res then Resolved (decoded_body res)
         else Rejected (toApiError (Some (num (Response.status res)))
                          (decoded_body res) (Some "サーバーエラーが発生しました。"))
     end) /\
  map fst (run (get None transport this path)).1 = ["undefined" ++ path] /\
  map fst (run (post None transport JSON_stringify this path data)).1
    = ["undefined" ++ path] /\
  map fst (run (delete None transport this path)).1 = ["undefined" ++ path].
Proof.
  split; [reflexivity |]. split; [apply request_run |].
  unfold get, post, delete. now rewrite !request_run.
Qed.

(** ** The query builder *)

Lemma append_nonempty_l (s t : string) : s <> "" -> (s ++ t)%string <> "".
Proof. destruct s; [contradiction | discriminate]. Qed.

Lemma append_nonempty_r (s t : string) : t <> "" -> (s ++ t)%string <> "".
Proof. destruct s; [trivial | discriminate]. Qed.

Lemma chars_app (s t : string) :
  list_ascii_of_string (s ++ t) = (list_ascii_of_string s ++ list_ascii_of_string t)%list.
Proof. induction s as [|c s IH]; simpl; [reflexivity | now rewrite IH]. Qed.

Section URLSearchParamsFacts.

Import URLSearchParams.

Lemma has_app (sp sp' : t) (k : string) : has (sp ++ sp')%list k = has sp k || has sp' k.
Proof. apply existsb_app. Qed.

(** On a name that is not there yet, [set] is [append]. *)
Lemma set_fresh (sp : t) (k v : string) :
  has sp k = false -> set sp k v = (sp ++ [(k, v)])%list.
Proof. intros H. unfold set. now rewrite H. Qed.

Lemma fold_append {A} (f : A -> string) (k : string) (items : list A) (sp : t) :
  fold_left (fun sp item => append sp k (f item)) items sp
  = (sp ++ map (fun item => (k, f item)) items)%list.
Proof.
  revert sp. induction items as [|x items IH]; intros sp; simpl.
  - now rewrite app_nil_r.
  - rewrite IH. unfold append. now rewrite <- app_assoc.
Qed.

Lemma encode_pair_nonempty (p : string * string) : encode_pair p <> "".
Proof. unfold encode_pair. apply append_nonempty_r. discriminate. Qed.

Lemma toString_empty_iff (sp : t) : toString sp = "" <-> sp = [].
Proof.
  split; [|now intros ->].
  destruct sp as [|p sp]; [reflexivity |]. unfold toString. simpl.
  intros H. exfalso. destruct (map encode_pair sp).
  - now apply (encode_pair_nonempty p).
  - revert H. apply append_nonempty_l, encode_pair_nonempty.
Qed.

(** Every byte is serialised to bytes that are neither a space nor one of
    the separators of a query string. *)
Lemma encode_byte_safe (c : ascii) :
  Forall (fun x => x ∉ [" "; "&"; "="; "?"; "#"]%char) (list_ascii_of_string (encode_byte c)).
Proof.
  apply Forall_forall. intros x Hx.
  assert (forallb (fun x => negb (bool_decide (x ∈ [" "; "&"; "="; "?"; "#"]%char)))
            (list_ascii_of_string (encode_byte c)) = true) as H
    by (destruct c as [[] [] [] [] [] [] [] []]; vm_compute; reflexivity).
  rewrite forallb_forall in H. apply list_elem_of_In in Hx. specialize (H x Hx).
  apply negb_true_iff, bool_decide_eq_false in H. exact H.
Qed.

Lemma encode_safe (s : string) :
  Forall (fun x => x ∉ [" "; "&"; "="; "?"; "#"]%char) (list_ascii_of_string (encode s)).
Proof.
  induction s as [|c s IH]; simpl; [constructor |].
  rewrite chars_app. apply Forall_app. split; [apply encode_byte_safe | exact IH].
Qed.

Lemma toString_no_space (sp : t) :
  Forall (fun x => x <> " "%char) (list_ascii_of_string (toString sp)).
Proof.
  assert (Hpair : forall p, Forall (fun x => x <> " "%char)
                              (list_ascii_of_string (encode_pair p))).
  { intros p. unfold encode_pair. rewrite !chars_app. repeat (apply Forall_app; split).
    - eapply Forall_impl; [apply encode_safe | set_solver].
    - repeat constructor; discriminate.
    - eapply Forall_impl; [apply encode_safe | set_solver]. }
  unfold toString. induction sp as [|p sp IH]; [constructor |].
  cbn [map join_amp]. destruct (map encode_pair sp) eqn:E; [apply Hpair |].
  rewrite !chars_app. repeat (apply Forall_app; split); [apply Hpair | | exact IH].
  repeat constructor; discriminate.
Qed.

End URLSearchParamsFacts.

Section QueryProperties.

Variable Number_toString : number -> string.


(** One round of the loop on a field whose name has no pair yet. *)
Lemma buildQuery_step_fresh (sp : URLSearchParams.t) (entry : string * JsValue) :
  URLSearchParams.has sp entry.1 = false ->
  buildQuery_step Number_toString sp entry = (sp ++ spec_field_pairs Number_toString entry)%list.
Proof.
  destruct entry as [k v]. unfold spec_field_pairs. cbn [fst snd]. intros H.
  destruct v; cbn [buildQuery_step];
    rewrite ?app_nil_r, ?(set_fresh _ _ _ H), ?fold_append; reflexivity.
Qed.

Lemma spec_field_pairs_names (entry : string * JsValue) (k : string) :
  k <> entry.1 -> URLSearchParams.has (spec_field_pairs Number_toString entry) k = false.
Proof.
  intros Hne. unfold URLSearchParams.has. apply not_true_is_false. intros H.
  apply existsb_exists in H as (p & Hin & Hp). apply String.eqb_eq in Hp.
  apply Hne. rewrite <- Hp. clear Hp.
  destruct entry as [k' v]. unfold spec_field_pairs in Hin. cbn [fst snd] in *.
  destruct v; simpl in Hin;
    try contradiction;
    try (destruct Hin as [<-|[]]; reflexivity).
  apply in_map_iff in Hin as (x & <- & _). reflexivity.
Qed.

(** The whole loop, for fields of distinct names none of which has a pair
    yet. *)
Lemma buildQuery_loop (params : list (string * JsValue)) (sp : URLSearchParams.t) :
  NoDup params.*1 ->
  (forall k, k ∈ params.*1 -> URLSearchParams.has sp k = false) ->
  fold_left (buildQuery_step Number_toString) params sp
  = (sp ++ flat_map (spec_field_pairs Number_toString) params)%list.
Proof.
  revert sp. induction params as [|entry params IH]; intros sp Hnd Hfresh.
  - simpl. now rewrite app_nil_r.
  - rewrite fmap_cons in Hnd, Hfresh. apply NoDup_cons in Hnd as [Hnotin Hnd].
    cbn [fold_left flat_map].
    rewrite buildQuery_step_fresh by (apply Hfresh; left).
    rewrite IH; [now rewrite <- app_assoc | exact Hnd |].
    intros k Hk. rewrite has_app, Hfresh by now right.
    apply spec_field_pairs_names. intros ->. contradiction.
Qed.

(** C9: for a parameter object (its entries have distinct names)
    [buildQuery] returns what the specification describes: no pair for an
    [undefined] or [null] field, one pair per element of an array field in
    array order, one pair for any other field, names and values serialised
    and the pairs joined by [&] after a [?]; nothing at all when there is no
    pair.  No raw space is left in the result, and the empty object gives the
    empty string. *)
Theorem buildQuery_spec (params : list (string * JsValue)) :
  NoDup params.*1 ->
  buildQuery Number_toString params = spec_query Number_toString params /\
  Forall (fun c => c <> " "%char) (list_ascii_of_string (buildQuery Number_toString params)) /\
  buildQuery Number_toString [] = "".
Proof.
  intros Hnd. split; [|split; [|reflexivity]].
  - unfold buildQuery, spec_query.
    rewrite buildQuery_loop by (trivial; reflexivity).
    unfold URLSearchParams.empty. rewrite app_nil_l.
    destruct (flat_map (spec_field_pairs Number_toString) params) as [|p ps] eqn:E; [reflexivity |].
    cbn [truthy].
    destruct (String.eqb_spec (URLSearchParams.toString (p :: ps)) "") as [Hq|Hq];
      [|reflexivity].
    apply toString_empty_iff in Hq. discriminate Hq.
  - unfold buildQuery.
    destruct (truthy _); [|constructor].
    rewrite chars_app. apply Forall_app. split; [repeat constructor; discriminate |].
    apply toString_no_space.
Qed.

End QueryProperties.

Lemma buildQuery_spec_witness :
  buildQuery print_integral
    [("q", JStr "a b"); ("tags", JArr [JStr "x"; JStr "y"]); ("page", JUndefined);
     ("limit", JNum (num 20))]
  = "?q=a+b&tags=x&tags=y&limit=20".
Proof.
  destruct (buildQuery_spec print_integral
              [("q", JStr "a b"); ("tags", JArr [JStr "x"; JStr "y"]);
               ("page", JUndefined); ("limit", JNum (num 20))])
    as (H & _ & _).
  - apply (bool_decide_unpack _). vm_compute. exact I.
  - rewrite H. vm_compute. reflexivity.
Defined.

(** * Further properties *)

(** ** The error normaliser, beyond the code *)


(** Whatever the input, the error carries a message that is neither [null]
    nor [undefined]: a string, or the message of a structured body passed
    through; the status and the body are kept as they came. *)
Theorem toApiError_fields (st : option number) (body : JsValue) (fb : option string) :
  let r := toApiError st body fb in
  message r <> JUndefined /\ message r <> JNull /\
  ((exists s, message r = JStr s) \/
   (isServerErrorShape body = true /\
    message r = get_prop (get_prop body "error") "message")) /\
  status r = st /\ details r = body.
Proof.
  cbv zeta. unfold toApiError. destruct (isServerErrorShape body).
  - cbn [message status details].
    destruct (get_prop (get_prop body "error") "message"); cbn [nullish];
      repeat split; try discriminate; eauto.
  - destruct st; cbn [message status details]; repeat split; try discriminate; eauto.
Qed.

Lemma mapped_code_not (s : number) (c : ApiErrorCode) :
  c = PURCHASE_REQUIRED \/ c = NETWORK_ERROR ->
  code_string (mapHttpStatusToCode s) <> code_string c.
Proof.
  intros Hc. pose proof (mapHttpStatusToCode_range s) as Hr.
  repeat (apply elem_of_cons in Hr as [->|Hr]);
    try (destruct Hc as [->| ->]; discriminate).
  now apply elem_of_nil in Hr.
Qed.

(** [PURCHASE_REQUIRED], and [NETWORK_ERROR] on a call that has a status,
    are never made up by the client: such a code was in a structured
    body. *)
Theorem toApiError_code_from_body
    (st : option number) (body : JsValue) (fb : option string) (c : ApiErrorCode) :
  code (toApiError st body fb) = JStr (code_string c) ->
  c = PURCHASE_REQUIRED \/ (c = NETWORK_ERROR /\ st <> None) ->
  isServerErrorShape body = true /\
  get_prop (get_prop body "error") "code" = JStr (code_string c).
Proof.
  intros Hcode Hc. destruct (isServerErrorShape body) eqn:E.
  - now rewrite (toApiError_structured _ _ _ E) in Hcode.
  - exfalso. rewrite (toApiError_unstructured _ _ _ E) in Hcode.
    destruct st as [s|].
    + cbn [code] in Hcode. injection Hcode as Hcode.
      apply (mapped_code_not s c); [tauto | exact Hcode].
    + destruct Hc as [->|[_ Hst]]; [discriminate Hcode | now apply Hst].
Qed.

Lemma toApiError_code_from_body_witness :
  let body := JObj [("error", JObj [("code", JStr "PURCHASE_REQUIRED")])] in
  isServerErrorShape body = true /\
  get_prop (get_prop body "error") "code" = JStr "PURCHASE_REQUIRED".
Proof.
  cbv zeta.
  apply (toApiError_code_from_body (Some (num 403))
           (JObj [("error", JObj [("code", JStr "PURCHASE_REQUIRED")])]) None
           PURCHASE_REQUIRED).
  - reflexivity.
  - left. reflexivity.
Defined.

Lemma strict_eq_num (a b : Z) : num_strict_eq (num a) (num b) = (a =? b).
Proof. apply strict_eq_status_is. simpl. reflexivity. Qed.

Lemma ge_num (a b : Z) : num_ge (num a) (num b) = (b <=? a).
Proof.
  simpl. destruct (Z.leb_spec b a) as [H|H].
  - apply Qle_bool_iff. now rewrite <- Zle_Qle.
  - apply not_true_is_false. intros E. apply Qle_bool_iff in E.
    rewrite <- Zle_Qle in E. lia.
Qed.

(** On an integer status the table can be read backwards: each code names
    its status, or its range of statuses. *)
Theorem mapHttpStatusToCode_integer (z : Z) :
  (mapHttpStatusToCode (num z) = VALIDATION_ERROR <-> z = 400) /\
  (mapHttpStatusToCode (num z) = UNAUTHORIZED <-> z = 401) /\
  (mapHttpStatusToCode (num z) = FORBIDDEN <-> z = 403) /\
  (mapHttpStatusToCode (num z) = NOT_FOUND <-> z = 404) /\
  (mapHttpStatusToCode (num z) = EXPIRED <-> z = 410) /\
  (mapHttpStatusToCode (num z) = SERVER_ERROR <-> 500 <= z) /\
  (mapHttpStatusToCode (num z) = UNKNOWN_ERROR <->
     z < 500 /\ z <> 400 /\ z <> 401 /\ z <> 403 /\ z <> 404 /\ z <> 410).
Proof.
  unfold mapHttpStatusToCode. rewrite !strict_eq_num, ge_num.
  repeat match goal with
         | |- context [?a =? ?b] => destruct (Z.eqb_spec a b)
         | |- context [?a <=? ?b] => destruct (Z.leb_spec a b)
         end;
    repeat split; intros; try discriminate; try lia.
Qed.

(** ** The request executor, beyond the code paths above *)

Lemma toApiError_status_field (st : option number) (body : JsValue) (fb : option string) :
  status (toApiError st body fb) = st.
Proof. unfold toApiError. now destruct (isServerErrorShape body), st. Qed.

(** A body that is [null] or a string is never of the structured shape. *)
Lemma text_body_unstructured (v : JsValue) :
  v = JNull \/ (exists s, v = JStr s) -> isServerErrorShape v = false.
Proof. now intros [->|[s ->]]. Qed.

Section ClientFurther.

Variable BASE_URL : option string.
Variable transport : string -> RequestInit.t -> Outcome JsValue Response.t.
Variable JSON_stringify : JsValue -> string.


(** How a call settled tells what the transport did: a resolved call saw a
    response with a status from 200 to 299 and returns its decoded body; a
    rejected call either saw [fetch] throw, and then carries no status, or saw
    a response with a status outside that range, and then carries it. *)
Theorem request_outcome_inv
    (this : ApiClient) (path : string) (init : RequestInit.t) :
  let answer := transport (template BASE_URL ++ path) (fetch_init this init) in
  let settled := (run (request BASE_URL transport this path init)).2 in
  (forall v, settled = Resolved v ->
     exists res, answer = Resolved res /\
       200 <= Response.status res <= 299 /\ v = decoded_body res) /\
  (forall err, settled = Rejected err ->
     (exists e, answer = Rejected e /\ status err = None) \/
     (exists res, answer = Resolved res /\
        ~ 200 <= Response.status res <= 299 /\
        status err = Some (num (Response.status res)))).
Proof.
  cbv zeta. rewrite request_run. cbn [snd]. fold (request_url BASE_URL path).
  destruct (transport (request_url BASE_URL path) (fetch_init this init)) as [res|e].
  - destruct (Response.ok res) eqn:Eok.
    + split; [|discriminate]. intros v [= <-]. exists res.
      apply ok_iff in Eok. auto.
    + split; [discriminate |]. intros err [= <-]. right. exists res.
      repeat split.
      * intros Hok. apply ok_iff in Hok. congruence.
      * apply toApiError_status_field.
  - split; [discriminate |]. intros err [= <-]. left. exists e.
    split; [reflexivity | apply toApiError_no_status_field].
Qed.

(** Only a body decoded as JSON can be a structured error: when the content
    type does not name JSON (or there is none), or the JSON does not parse,
    a resolved call returns a string or [null], and a rejected call takes
    its code from the status table alone. *)
Theorem request_without_json
    (this : ApiClient) (path : string) (init : RequestInit.t) (res : Response.t) :
  transport (template BASE_URL ++ path) (fetch_init this init) = Resolved res ->
  includes "application/json" (str_or (Response.content_type res) "") = false \/
    Response.json res = None ->
  let settled := (run (request BASE_URL transport this path init)).2 in
  (forall v, settled = Resolved v -> v = JNull \/ exists s, v = JStr s) /\
  (forall err, settled = Rejected err ->
     code err = JStr (code_string (mapHttpStatusToCode (num (Response.status res))))).
Proof.
  intros Hres Hct. cbv zeta. rewrite request_run. cbn [snd].
  fold (request_url BASE_URL path) in Hres. rewrite Hres.
  assert (Htext : decoded_body res = JNull \/ exists s, decoded_body res = JStr s).
  { unfold decoded_body. destruct Hct as [->| ->].
    - destruct (Response.text res); eauto.
    - destruct (includes _ _); [auto |]. destruct (Response.text res); eauto. }
  destruct (Response.ok res).
  - split; [|discriminate]. now intros v [= <-].
  - split; [discriminate |]. intros err [= <-].
    now rewrite (toApiError_unstructured _ _ _ (text_body_unstructured _ Htext)).
Qed.


(** Loading the module stays silent exactly for a base URL that is set and
    not empty; an empty one warns as a missing one does. *)
Theorem module_load_silent_iff :
  module_load BASE_URL = [] <-> exists s, BASE_URL = Some s /\ s <> "".
Proof.
  unfold module_load. destruct BASE_URL as [s|]; cbn [truthy negb].
  - rewrite negb_involutive. destruct (String.eqb_spec s "") as [->|Hne].
    + split; [discriminate |]. now intros (s & [= <-] & Hs).
    + split; [eauto | reflexivity].
  - split; [discriminate |]. now intros (s & [=] & _).
Qed.

End ClientFurther.

Lemma request_without_json_witness :
  let res := Response.mk 502 (Some "text/html")
               (Some (JObj [("error", JObj [("code", JStr "FORBIDDEN")])]))
               (Some "<html>Bad Gateway</html>") in
  exists err,
    (run (request (Some "https://api.example.test") (fun _ _ => Resolved res)
            apiClient "/me" (RequestInit.mk (Some "GET") None None None))).2
      = Rejected err /\
    code err = JStr "SERVER_ERROR".
Proof.
  cbv zeta. eexists. split; [reflexivity |].
  apply (proj2
           (request_without_json (Some "https://api.example.test")
              (fun _ _ => Resolved
                 (Response.mk 502 (Some "text/html")
                    (Some (JObj [("error", JObj [("code", JStr "FORBIDDEN")])]))
                    (Some "<html>Bad Gateway</html>")))
              apiClient "/me" (RequestInit.mk (Some "GET") None None None) _
              eq_refl (or_introl eq_refl))).
  reflexivity.
Defined.

(** ** The two encodings *)

Lemma string_app_inv_head (a b c : string) : (a ++ b)%string = (a ++ c)%string -> b = c.
Proof.
  induction a as [|x a IH]; [trivial |]. intros H.
  change (String x (a ++ b) = String x (a ++ c))%string in H.
  injection H as H. auto.
Qed.


Lemma form_decode_byte (c : ascii) (rest : string) :
  form_decode (URLSearchParams.encode_byte c ++ rest) = String c (form_decode rest).
Proof. destruct c as [[] [] [] [] [] [] [] []]; reflexivity. Qed.


Lemma form_decode_encode (s : string) : form_decode (URLSearchParams.encode s) = s.
Proof.
  induction s as [|c s IH]; [reflexivity |].
  cbn [URLSearchParams.encode]. now rewrite form_decode_byte, IH.
Qed.



(** ** The endpoint functions *)

Section EndpointProperties.

Variable BASE_URL : option string.
Variable transport : string -> RequestInit.t -> Outcome JsValue Response.t.
Variable JSON_stringify : JsValue -> string.
Variable Number_toString : number -> string.






End EndpointProperties.


(** ** The query builder, beyond the code paths above *)

Lemma append_cons (c : ascii) (a b : string) :
  (String c a ++ b)%string = String c (a ++ b)%string.
Proof. reflexivity. Qed.

(** Cutting a string at the first occurrence of a separator. *)
Lemma split_sep (sep : ascii) (a a' r r' : string) :
  Forall (fun x => x <> sep) (list_ascii_of_string a) ->
  Forall (fun x => x <> sep) (list_ascii_of_string a') ->
  (a ++ String sep r)%string = (a' ++ String sep r')%string ->
  a = a' /\ r = r'.
Proof.
  revert a'. induction a as [|c a IH]; intros [|c' a'] Ha Ha' H.
  - change (String sep r = String sep r') in H. now injection H.
  - rewrite append_cons in H. change (String sep r = String c' (a' ++ String sep r')) in H.
    injection H as Hc _. apply Forall_cons in Ha' as [Hc' _]. congruence.
  - rewrite append_cons in H. change (String c (a ++ String sep r) = String sep r') in H.
    injection H as Hc _. apply Forall_cons in Ha as [Hc' _]. congruence.
  - rewrite !append_cons in H. injection H as -> H.
    cbn [list_ascii_of_string] in Ha, Ha'.
    apply Forall_cons in Ha as [_ Ha]. apply Forall_cons in Ha' as [_ Ha'].
    destruct (IH a' Ha Ha' H) as [-> ->]. auto.
Qed.

Lemma no_sep_inside (sep : ascii) (a a' r' : string) :
  Forall (fun x => x <> sep) (list_ascii_of_string a) ->
  a <> (a' ++ String sep r')%string.
Proof.
  intros Ha ->. rewrite chars_app in Ha. apply Forall_app in Ha as [_ Ha].
  cbn [list_ascii_of_string] in Ha. apply Forall_cons in Ha as [Hsep _]. now apply Hsep.
Qed.

Section URLSearchParamsInjective.

Import URLSearchParams.

Lemma encode_inj (a b : string) : encode a = encode b -> a = b.
Proof.
  intros H. rewrite <- (form_decode_encode a), <- (form_decode_encode b). now rewrite H.
Qed.

Lemma encode_no (sep : ascii) (s : string) :
  sep ∈ [" "; "&"; "="; "?"; "#"]%char ->
  Forall (fun x => x <> sep) (list_ascii_of_string (encode s)).
Proof.
  intros Hsep. eapply Forall_impl; [apply encode_safe |].
  intros x Hx ->. now apply Hx.
Qed.

Lemma encode_pair_no_amp (p : string * string) :
  Forall (fun x => x <> "&"%char) (list_ascii_of_string (encode_pair p)).
Proof.
  unfold encode_pair. rewrite !chars_app. repeat (apply Forall_app; split).
  - apply encode_no. set_solver.
  - repeat constructor. discriminate.
  - apply encode_no. set_solver.
Qed.

Lemma encode_pair_inj (p q : string * string) : encode_pair p = encode_pair q -> p = q.
Proof.
  destruct p as [k v], q as [k' v']. unfold encode_pair. cbn [fst snd]. intros H.
  apply (split_sep "=") in H as [Hk Hv]; try (apply encode_no; set_solver).
  apply encode_inj in Hk, Hv. now subst.
Qed.

Lemma join_amp_cons (x y : string) (rest : list string) :
  join_amp (x :: y :: rest) = (x ++ String "&" (join_amp (y :: rest)))%string.
Proof. reflexivity. Qed.

Lemma join_amp_single (x : string) : join_amp [x] = x.
Proof. reflexivity. Qed.

(** The serialised form determines the list of pairs. *)
Lemma toString_inj (sp sp' : t) : toString sp = toString sp' -> sp = sp'.
Proof.
  revert sp'. induction sp as [|p sp IH]; intros sp' H.
  - symmetry in H. now apply toString_empty_iff in H.
  - destruct sp' as [|p' sp']; [now apply toString_empty_iff in H |].
    unfold toString in *. cbn [map] in H.
    destruct sp as [|q sp], sp' as [|q' sp']; cbn [map] in H.
    + cbn [join_amp] in H. apply encode_pair_inj in H. now subst.
    + rewrite join_amp_cons, join_amp_single in H.
      now apply (no_sep_inside "&") in H; [|apply encode_pair_no_amp].
    + rewrite join_amp_cons, join_amp_single in H. symmetry in H.
      now apply (no_sep_inside "&") in H; [|apply encode_pair_no_amp].
    + rewrite !join_amp_cons in H.
      apply (split_sep "&") in H as [Hp Hrest]; try apply encode_pair_no_amp.
      apply encode_pair_inj in Hp. subst p'. f_equal. apply IH. exact Hrest.
Qed.

End URLSearchParamsInjective.

Section QueryFurther.

Variable Number_toString : number -> string.

Lemma buildQuery_step_nonempty (sp : URLSearchParams.t) (entry : string * JsValue) :
  sp <> [] -> buildQuery_step Number_toString sp entry <> [].
Proof.
  intros Hsp. destruct entry as [k v].
  assert (Hset : forall x, URLSearchParams.set sp k x <> []).
  { intros x. unfold URLSearchParams.set, URLSearchParams.append.
    destruct (URLSearchParams.has sp k).
    - destruct sp as [|[n w] sp]; [contradiction |]. cbn [URLSearchParams.replace_first].
      now destruct (String.eqb n k).
    - now destruct sp. }
  destruct v; cbn [buildQuery_step]; auto.
  rewrite fold_append. now destruct sp.
Qed.

Lemma buildQuery_step_empty (entry : string * JsValue) :
  buildQuery_step Number_toString [] entry = [] <-> absent_field entry.
Proof.
  destruct entry as [k v]. unfold absent_field. cbn [snd].
  destruct v as [| | | | |items|props]; cbn [buildQuery_step];
    try (split; [discriminate | intros [H|[H|H]]; discriminate H]);
    try (split; auto; fail).
  rewrite fold_append. cbn [app]. destruct items; cbn [map].
  - split; auto.
  - split; [discriminate | intros [H|[H|H]]; discriminate H].
Qed.

Lemma buildQuery_loop_nonempty (params : list (string * JsValue)) (sp : URLSearchParams.t) :
  sp <> [] -> fold_left (buildQuery_step Number_toString) params sp <> [].
Proof.
  revert sp. induction params as [|e params IH]; intros sp Hsp; [exact Hsp |].
  cbn [fold_left]. now apply IH, buildQuery_step_nonempty.
Qed.

Lemma buildQuery_loop_empty (params : list (string * JsValue)) :
  fold_left (buildQuery_step Number_toString) params [] = [] <-> Forall absent_field params.
Proof.
  induction params as [|e params IH]; [split; [constructor | reflexivity] |].
  cbn [fold_left]. rewrite Forall_cons, <- IH, <- buildQuery_step_empty.
  destruct (buildQuery_step Number_toString [] e) as [|p sp] eqn:E.
  - tauto.
  - split; [|intros [H _]; discriminate H].
    intros H. exfalso. revert H. now apply buildQuery_loop_nonempty.
Qed.

(** The result is the empty string exactly when no field stands for a pair
    (each is [undefined], [null] or an empty array); otherwise it is a [?]
    followed by a query that is not empty.  Names need not be distinct. *)
Theorem buildQuery_empty_iff (params : list (string * JsValue)) :
  (buildQuery Number_toString params = "" <-> Forall absent_field params) /\
  (buildQuery Number_toString params = "" \/
   exists q, q <> "" /\ buildQuery Number_toString params = "?" ++ q).
Proof.
  unfold buildQuery. rewrite <- buildQuery_loop_empty. unfold URLSearchParams.empty.
  rewrite <- toString_empty_iff. cbn [truthy].
  destruct (String.eqb_spec
              (URLSearchParams.toString
                 (fold_left (buildQuery_step Number_toString) params [])) "")
    as [Hq|Hq]; cbn [negb].
  - split; [tauto | now left].
  - split; [split; [discriminate | contradiction] | right; eauto].
Qed.

(** Two parameter objects give the same query string only if they stand for
    the same pairs in the same order: the query string can be read back. *)
Theorem buildQuery_inj (params params' : list (string * JsValue)) :
  NoDup params.*1 -> NoDup params'.*1 ->
  buildQuery Number_toString params = buildQuery Number_toString params' ->
  flat_map (spec_field_pairs Number_toString) params
    = flat_map (spec_field_pairs Number_toString) params'.
Proof.
  intros Hnd Hnd'. unfold buildQuery.
  rewrite !buildQuery_loop by (trivial; reflexivity).
  unfold URLSearchParams.empty. rewrite !app_nil_l. cbn [truthy].
  set (sp := flat_map _ params). set (sp' := flat_map _ params').
  destruct (String.eqb_spec (URLSearchParams.toString sp) "") as [Hq|Hq];
    destruct (String.eqb_spec (URLSearchParams.toString sp') "") as [Hq'|Hq'];
    cbn [negb]; intros H.
  - apply toString_empty_iff in Hq, Hq'. congruence.
  - discriminate H.
  - discriminate H.
  - apply (string_app_inv_head "?") in H. now apply toString_inj.
Qed.

End QueryFurther.

(** A product list is requested at [/products] with nothing after it exactly
    when no field of the query stands for a pair; a call without argument is
    such a call. *)
Theorem list_url_plain_iff
    (BASE_URL : option string)
    (transport : string -> RequestInit.t -> Outcome JsValue Response.t)
    (Number_toString : number -> string)
    (query : option (list (string * JsValue))) :
  map fst (run (productsApi.list BASE_URL transport Number_toString query)).1
    = [template BASE_URL ++ "/products"]
  <-> Forall absent_field (default [] query).
Proof.
  unfold productsApi.list, get. rewrite request_run. cbn [fst map].
  unfold request_url, buildQuery, URLSearchParams.empty.
  rewrite <- (buildQuery_loop_empty Number_toString), <- toString_empty_iff.
  cbn [truthy].
  destruct (String.eqb_spec
              (URLSearchParams.toString
                 (fold_left (buildQuery_step Number_toString) (default [] query) [])) "")
    as [Hq|Hq]; cbn [negb].
  - split; [trivial |]. intros _. reflexivity.
  - split; [|contradiction]. intros [= H]. exfalso.
    apply string_app_inv_head in H. vm_compute in H. discriminate H.
Qed.

Lemma buildQuery_inj_witness :
  flat_map (spec_field_pairs print_integral)
    [("q", JStr "a&b"); ("page", JNum (num 2))]
  = flat_map (spec_field_pairs print_integral)
      [("q", JStr "a&b"); ("sort", JNull); ("page", JStr "2")].
Proof.
  apply (buildQuery_inj print_integral
           [("q", JStr "a&b"); ("page", JNum (num 2))]
           [("q", JStr "a&b"); ("sort", JNull); ("page", JStr "2")]).
  - apply (bool_decide_unpack _). vm_compute. exact I.
  - apply (bool_decide_unpack _). vm_compute. exact I.
  - vm_compute. reflexivity.
Defined.

(** ** The sign-in and sign-up pages *)

Lemma trimStart_nil_iff (s : ustring) :
  trimStart s = [] <-> Forall (fun u => is_space u = true) s.
Proof.
  induction s as [|u s IH]; [split; [constructor | reflexivity] |].
  cbn [trimStart]. rewrite Forall_cons. destruct (is_space u).
  - rewrite IH. tauto.
  - split; [discriminate | intros [H _]; discriminate H].
Qed.

Lemma trimStart_all_space (s : ustring) :
  Forall (fun u => is_space u = true) (trimStart s) -> trimStart s = [].
Proof.
  induction s as [|u s IH]; [reflexivity |].
  cbn [trimStart]. destruct (is_space u) eqn:E; [exact IH |].
  intros H. inversion H as [|? ? Hu _]. congruence.
Qed.

(** [s.trim() === ""] says that [s] holds white space only. *)
Lemma trim_nil_iff (s : ustring) :
  trim s = [] <-> Forall (fun u => is_space u = true) s.
Proof.
  unfold trim. rewrite <- trimStart_nil_iff. split.
  - intros H. apply (f_equal (@rev N)) in H. rewrite rev_involutive in H.
    cbn [rev] in H. apply trimStart_nil_iff in H. apply Forall_rev in H.
    rewrite rev_involutive in H. now apply trimStart_all_space.
  - now intros ->.
Qed.

Lemma trim_not_blank (s : ustring) :
  ustring_eqb (trim s) [] = false <-> not_blank s.
Proof.
  unfold ustring_eqb, not_blank. rewrite bool_decide_eq_false, trim_nil_iff.
  rewrite <- Exists_Forall_neg by (intros u; destruct (is_space u); auto).
  rewrite Exists_exists. split; intros (u & Hu & Hs); exists u; split; trivial.
  - now destruct (is_space u).
  - congruence.
Qed.

Lemma not_blank_length (s : ustring) : not_blank s -> (0 < length s)%nat.
Proof. intros (u & Hu & _). destruct s; [now apply elem_of_nil in Hu | simpl; lia]. Qed.

(** The sign-up form can be submitted exactly when name, e-mail address and
    password hold more than white space, the confirmation is the password, the
    password has at least 8 code units, the terms are agreed to and no
    submission is running. *)
Theorem signup_enabled_iff (st : SignUpPage.State) :
  SignUpPage.isDisabled st = false <->
  not_blank (SignUpPage.name st) /\
  not_blank (SignUpPage.email st) /\
  not_blank (SignUpPage.password st) /\
  SignUpPage.passwordConfirm st = SignUpPage.password st /\
  (8 <= length (SignUpPage.password st))%nat /\
  SignUpPage.agree st = true /\
  SignUpPage.loading st = false.
Proof.
  unfold SignUpPage.isDisabled, SignUpPage.passwordMismatch, SignUpPage.passwordTooShort.
  rewrite !orb_false_iff, !trim_not_blank, negb_false_iff, !andb_false_iff,
    negb_false_iff.
  unfold ustring_eqb. rewrite bool_decide_eq_true, !Nat.ltb_ge.
  split.
  - intros (((((((Hn & He) & Hp) & Hc) & Hm) & Hs) & Ha) & Hl).
    apply not_blank_length in Hp as Hplen. apply not_blank_length in Hc as Hclen.
    repeat split; trivial.
    + destruct Hm as [Hm|Hm]; [lia | now symmetry].
    + destruct Hs as [Hs|Hs]; [lia | exact Hs].
  - intros (Hn & He & Hp & Hc & Hlen & Ha & Hl). rewrite Hc. repeat split; auto.
Qed.

Section PageProperties.

Variable BASE_URL : option string.
Variable transport : string -> RequestInit.t -> Outcome JsValue Response.t.
Variable JSON_stringify : JsValue -> string.
Variable utf8 : ustring -> string.

(** Submitting the sign-up form.  A disabled form calls nothing and changes
    nothing.  Otherwise one POST goes to [/auth/signup] with the e-mail
    address and the password (the name is not sent); afterwards the form is
    no longer loading; a resolved call clears the errors and navigates to
    [/signin]; a rejected call does not navigate and shows the fixed text,
    whatever the error says. *)
Theorem signup_handleSubmit (st : SignUpPage.State) :
  let result := SignUpPage.handleSubmit BASE_URL transport JSON_stringify utf8 st in
  let call :=
    authApi.signup BASE_URL transport JSON_stringify
      (SignUpRequest.mk (utf8 (SignUpPage.email st)) (utf8 (SignUpPage.password st))) in
  (SignUpPage.isDisabled st = true ->
   result.1 = [] /\ SignUpPage.after st result.2 = st) /\
  (SignUpPage.isDisabled st = false ->
   map (fun c => (c.1, RequestInit.method c.2, RequestInit.body c.2)) result.1
     = [(template BASE_URL ++ "/auth/signup", Some "POST",
         Some (JSON_stringify
                 (JObj [("email", JStr (utf8 (SignUpPage.email st)));
                        ("password", JStr (utf8 (SignUpPage.password st)))])))] /\
   SignUpPage.loading (SignUpPage.after st result.2) = false /\
   match (run call).2 with
   | Resolved _ =>
       SignUpPage.errors (SignUpPage.after st result.2) = no_errors /\
       router_push "/signin" ∈ result.2
   | Rejected _ =>
       SignUpPage.errors (SignUpPage.after st result.2)
         = mkErrors None None (Some (JStr "新規登録に失敗しました")) /\
       forall href, router_push href ∉ result.2
   end).
Proof.
  cbv zeta. unfold SignUpPage.handleSubmit. split; intros Hd; rewrite Hd.
  - split; [reflexivity | now destruct st].
  - unfold authApi.signup, post. rewrite request_run. cbn [fst snd map].
    split; [reflexivity |].
    destruct (match transport _ _ with Resolved _ => _ | Rejected _ => _ end)
      as [v|err]; cbn; (split; [reflexivity |]); split; try reflexivity.
    + repeat constructor.
    + intros href Hin.
      repeat (apply elem_of_cons in Hin as [Hin|Hin]; [discriminate Hin |]).
      now apply elem_of_nil in Hin.
Qed.

(** Submitting the sign-in form.  The form can be submitted exactly when
    e-mail address and password hold more than white space and no
    submission is running; a disabled form calls nothing and changes nothing.
    Otherwise one POST goes to [/auth/signin] with the e-mail address and the
    password; afterwards the form is no longer loading; a resolved call
    clears the errors and navigates to [/]; a rejected call does not navigate
    and shows the fixed text, whatever the error says. *)
Theorem signin_handleSubmit (st : SignInPage.State) :
  let result := SignInPage.handleSubmit BASE_URL transport JSON_stringify utf8 st in
  let call :=
    authApi.signin BASE_URL transport JSON_stringify
      (SignInRequest.mk (utf8 (SignInPage.email st)) (utf8 (SignInPage.password st))) in
  (SignInPage.isDisabled st = false <->
   not_blank (SignInPage.email st) /\ not_blank (SignInPage.password st) /\
   SignInPage.loading st = false) /\
  (SignInPage.isDisabled st = true ->
   result.1 = [] /\ SignInPage.after st result.2 = st) /\
  (SignInPage.isDisabled st = false ->
   map (fun c => (c.1, RequestInit.method c.2, RequestInit.body c.2)) result.1
     = [(template BASE_URL ++ "/auth/signin", Some "POST",
         Some (JSON_stringify
                 (JObj [("email", JStr (utf8 (SignInPage.email st)));
                        ("password", JStr (utf8 (SignInPage.password st)))])))] /\
   SignInPage.loading (SignInPage.after st result.2) = false /\
   match (run call).2 with
   | Resolved _ =>
       SignInPage.errors (SignInPage.after st result.2) = no_errors /\
       router_push "/" ∈ result.2
   | Rejected _ =>
       SignInPage.errors (SignInPage.after st result.2)
         = mkErrors None None (Some (JStr "サインインに失敗しました")) /\
       forall href, router_push href ∉ result.2
   end).
Proof.
  cbv zeta. split.
  { unfold SignInPage.isDisabled. rewrite !orb_false_iff, !trim_not_blank. tauto. }
  unfold SignInPage.handleSubmit. split; intros Hd; rewrite Hd.
  - split; [reflexivity | now destruct st].
  - unfold authApi.signin, post. rewrite request_run. cbn [fst snd map].
    split; [reflexivity |].
    destruct (match transport _ _ with Resolved _ => _ | Rejected _ => _ end)
      as [v|err]; cbn; (split; [reflexivity |]); split; try reflexivity.
    + repeat constructor.
    + intros href Hin.
      repeat (apply elem_of_cons in Hin as [Hin|Hin]; [discriminate Hin |]).
      now apply elem_of_nil in Hin.
Qed.

End PageProperties.

Lemma signup_handleSubmit_witness :
  let units (s : string) : ustring := map N_of_ascii (list_ascii_of_string s) in
  let ascii_utf8 (s : ustring) : string := string_of_list_ascii (map ascii_of_N s) in
  let st :=
    SignUpPage.mkState (units "Al") (units "a@b.c") (units "passw0rd") (units "passw0rd")
      true false false false no_errors in
  let result :=
    SignUpPage.handleSubmit (Some "https://api.example.test")
      (fun _ _ => Resolved (Response.mk 409 (Some "application/json")
                              (Some (JObj [("error", JObj [("code", JStr "VALIDATION_ERROR");
                                                           ("message", JStr "taken")])]))
                              None))
      (fun _ => "{}") ascii_utf8 st in
  SignUpPage.isDisabled st = false /\
  map fst result.1 = ["https://api.example.test/auth/signup"] /\
  SignUpPage.loading (SignUpPage.after st result.2) = false /\
  SignUpPage.errors (SignUpPage.after st result.2)
    = mkErrors None None (Some (JStr "新規登録に失敗しました")).
Proof.
  cbv zeta.
  pose proof
    (proj2
       (signup_handleSubmit (Some "https://api.example.test")
          (fun _ _ => Resolved (Response.mk 409 (Some "application/json")
                                  (Some (JObj [("error", JObj [("code", JStr "VALIDATION_ERROR");
                                                               ("message", JStr "taken")])]))
                                  None))
          (fun _ => "{}")
          (fun s => string_of_list_ascii (map ascii_of_N s))
          (SignUpPage.mkState
             (map N_of_ascii (list_ascii_of_string "Al"))
             (map N_of_ascii (list_ascii_of_string "a@b.c"))
             (map N_of_ascii (list_ascii_of_string "passw0rd"))
             (map N_of_ascii (list_ascii_of_string "passw0rd"))
             true false false false no_errors))
       eq_refl) as (Hcall & Hload & Hsettled).
  split; [reflexivity |]. split; [reflexivity |]. split; [exact Hload |].
  exact (proj1 Hsettled).
Defined.

Lemma signin_handleSubmit_witness :
  let units (s : string) : ustring := map N_of_ascii (list_ascii_of_string s) in
  let ascii_utf8 (s : ustring) : string := string_of_list_ascii (map ascii_of_N s) in
  let st := SignInPage.mkState (units "a@b.c") (units "passw0rd") false true false no_errors in
  let result :=
    SignInPage.handleSubmit (Some "https://api.example.test")
      (fun _ _ => Resolved (Response.mk 200 (Some "application/json")
                              (Some (JObj [("user", JObj [("id", JStr "u1")])])) None))
      (fun _ => "{}") ascii_utf8 st in
  SignInPage.isDisabled st = false /\
  map fst result.1 = ["https://api.example.test/auth/signin"] /\
  SignInPage.errors (SignInPage.after st result.2) = no_errors /\
  router_push "/" ∈ result.2.
Proof.
  cbv zeta.
  pose proof
    (proj2 (proj2
       (signin_handleSubmit (Some "https://api.example.test")
          (fun _ _ => Resolved (Response.mk 200 (Some "application/json")
                                  (Some (JObj [("user", JObj [("id", JStr "u1")])])) None))
          (fun _ => "{}")
          (fun s => string_of_list_ascii (map ascii_of_N s))
          (SignInPage.mkState
             (map N_of_ascii (list_ascii_of_string "a@b.c"))
             (map N_of_ascii (list_ascii_of_string "passw0rd"))
             false true false no_errors)))
       eq_refl) as (Hcall & Hload & Hsettled).
  split; [reflexivity |]. split; [reflexivity |]. exact Hsettled.
Defined.
